(** * palettegen: a shallow embedding of [src/main.py] and its properties

    The program clusters the pixels of an image into five centroids,
    orders them by luminance, derives a palette of eleven named hex
    colours and writes it in two text formats.

    Numbers.  Centroids and the intermediate values of the colour
    arithmetic are Python floats; they are embedded as rationals [Q] with
    exact arithmetic.  Every double is a rational, and [int()] on a float
    is exactly truncation toward zero of that rational, so the integer
    conversions are embedded exactly; the products and quotients are the
    exact ones, without the rounding of IEEE arithmetic.

    Exceptions are values of [exn] carried by [result]; the file system
    and the standard output are an explicit [world]. *)

From Stdlib Require Import ZArith QArith Qround Qminmax Qabs Lqa Lia Ascii String.
From stdpp Require Import gmap strings list fin_maps sorting.

Local Open Scope Z_scope.

(** ** Exceptions *)

Inductive exn : Type :=
  | KeyError (key : string)
  | IndexError
  | ZeroDivisionError
  | ImageLoadError
  | ClusteringError
  | IsADirectoryError (path : string)
  | FileExistsError (path : string).

Inductive result (A : Type) : Type :=
  | Ok (a : A)
  | Raise (e : exn).
Arguments Ok {A} a.
Arguments Raise {A} e.

#[global] Instance result_ret : MRet result := @Ok.
#[global] Instance result_bind : MBind result := fun A B k m =>
  match m with
  | Ok a => k a
  | Raise e => Raise e
  end.

Fixpoint mapM {A B : Type} (f : A -> result B) (l : list A) : result (list B) :=
  match l with
  | [] => Ok []
  | x :: l' => y ← f x; ys ← mapM f l'; Ok (y :: ys)
  end.

(** ** Python primitives used by the program *)

(** [l[i]] on a list, with Python's negative indices. *)
Definition py_index {A : Type} (l : list A) (i : Z) : result A :=
  let n := Z.of_nat (length l) in
  let j := if i <? 0 then i + n else i in
  if (0 <=? j) && (j <? n) then
    match l !! Z.to_nat j with
    | Some x => Ok x
    | None => Raise IndexError
    end
  else Raise IndexError.

(** [int(x)] on a float: truncation toward zero. *)
Definition py_int (x : Q) : Z := Z.quot (Qnum x) (Z.pos (Qden x)).

(** [a / b] on floats. *)
Definition py_div (a b : Q) : result Q :=
  if Qeq_bool b 0 then Raise ZeroDivisionError else Ok (a / b)%Q.

(** [x % 1.0]: Python's modulo has the sign of the divisor. *)
Definition py_mod1 (x : Q) : Q := (x - inject_Z (Qfloor x))%Q.

Definition digit_char (d : Z) : ascii :=
  nth (Z.to_nat d)
    ["0"; "1"; "2"; "3"; "4"; "5"; "6"; "7"; "8"; "9";
     "a"; "b"; "c"; "d"; "e"; "f"]%char "0"%char.

Fixpoint digits_go (base : Z) (fuel : nat) (n : Z) (acc : string) : string :=
  match fuel with
  | O => acc
  | S fuel' =>
      let acc' := String (digit_char (n mod base)) acc in
      if n / base =? 0 then acc' else digits_go base fuel' (n / base) acc'
  end.

(** The digits of [n >= 0] in base 10 or 16, most significant first. *)
Definition digits (base : Z) (n : Z) : string :=
  digits_go base (S (Z.to_nat (Z.log2 n))) n "".

(** [str(n)] for an int, as an f-string renders it. *)
Definition py_str (n : Z) : string :=
  if n <? 0 then "-" +:+ digits 10 (- n) else digits 10 n.

(** ["{:02x}".format(n)]: lowercase hex, zero-padded to width two, the sign
    counted in the width. *)
Definition format_02x (n : Z) : string :=
  if n <? 0 then "-" +:+ digits 16 (- n)
  else
    let s := digits 16 n in
    if (String.length s <? 2)%nat then "0" +:+ s else s.

(** ["#{:02x}{:02x}{:02x}".format(r, g, b)]. *)
Definition format_rgb (rgb : Z * Z * Z) : string :=
  let '(r, g, b) := rgb in
  "#" +:+ format_02x r +:+ format_02x g +:+ format_02x b.

(** ** colorsys (Python standard library), in exact arithmetic *)

Definition rgb_to_hls (r g b : Q) : result (Q * Q * Q) :=
  let maxc := Qmax (Qmax r g) b in
  let minc := Qmin (Qmin r g) b in
  let sumc := (maxc + minc)%Q in
  let rangec := (maxc - minc)%Q in
  let l := (sumc / 2)%Q in
  if Qeq_bool minc maxc then Ok (0%Q, l, 0%Q)
  else
    s ← (if Qle_bool l (1 # 2) then py_div rangec sumc
         else py_div rangec (2 - maxc - minc)%Q);
    rc ← py_div (maxc - r)%Q rangec;
    gc ← py_div (maxc - g)%Q rangec;
    bc ← py_div (maxc - b)%Q rangec;
    let h := if Qeq_bool r maxc then (bc - gc)%Q
             else if Qeq_bool g maxc then (2 + rc - bc)%Q
             else (4 + gc - rc)%Q in
    Ok (py_mod1 (h / 6)%Q, l, s).

Definition Qlt_bool (x y : Q) : bool := negb (Qle_bool y x).

Definition _v (m1 m2 hue : Q) : Q :=
  let hue := py_mod1 hue in
  if Qlt_bool hue (1 # 6) then (m1 + (m2 - m1) * hue * 6)%Q
  else if Qlt_bool hue (1 # 2) then m2
  else if Qlt_bool hue (2 # 3) then (m1 + (m2 - m1) * ((2 # 3) - hue) * 6)%Q
  else m1.

Definition hls_to_rgb (h l s : Q) : Q * Q * Q :=
  if Qeq_bool s 0 then (l, l, l)
  else
    let m2 := if Qle_bool l (1 # 2) then (l * (1 + s))%Q
              else (l + s - l * s)%Q in
    let m1 := (2 * l - m2)%Q in
    (_v m1 m2 (h + (1 # 3))%Q, _v m1 m2 h, _v m1 m2 (h - (1 # 3))%Q).

(** ** extract_colors: the part after clustering *)

Definition color : Type := Q * Q * Q.

Definition luminance (c : color) : Q :=
  let '(r, g, b) := c in
  ((2126 # 10000) * r + (7152 # 10000) * g + (722 # 10000) * b)%Q.

(** [sorted(l, key=key)]: Python's sort is stable, and a stable sort has
    one possible result, the one of this insertion sort. *)
Section Sorted.
Context {A : Type} (key : A -> Q).

Fixpoint insert_by (x : A) (l : list A) : list A :=
  match l with
  | [] => [x]
  | y :: l' =>
      if Qle_bool (key x) (key y) then x :: l else y :: insert_by x l'
  end.

Fixpoint sorted (l : list A) : list A :=
  match l with
  | [] => []
  | x :: l' => insert_by x (sorted l')
  end.

End Sorted.

Definition tweak_saturation (rgb : color) (factor : Q) : result (Z * Z * Z) :=
  let '(r0, g0, b0) := rgb in
  let r := (r0 / 255)%Q in
  let g := (g0 / 255)%Q in
  let b := (b0 / 255)%Q in
  '(h, l, s) ← rgb_to_hls r g b;
  let s := Qmin (Qmax (s * factor) 0) 1 in
  let '(r, g, b) := hls_to_rgb h l s in
  Ok (py_int (r * 255), py_int (g * 255), py_int (b * 255)).

Definition shade_factors : list Q :=
  [1 # 2; 3 # 4; 1; 5 # 4; 3 # 2; 7 # 4; 2; 5 # 2]%Q.

(** [[int(c) for c in center]] *)
Definition int_channels (c : color) : Z * Z * Z :=
  let '(r, g, b) := c in (py_int r, py_int g, py_int b).

(** [for i, shade in enumerate(shades, start=i): palette[f"shade{9 - i}"] = ...] *)
Fixpoint assign_shades (i : Z) (shades : list (Z * Z * Z))
    (palette : gmap string string) : gmap string string :=
  match shades with
  | [] => palette
  | shade :: rest =>
      assign_shades (i + 1) rest
        (<["shade" +:+ py_str (9 - i) := format_rgb shade]> palette)
  end.

(** Lines 24-56 of [extract_colors], from [clt.cluster_centers_] on. *)
Definition compose_palette (cluster_centers : list color)
    : result (gmap string string) :=
  let centers := sorted luminance cluster_centers in
  c0 ← py_index centers 0;
  c4 ← py_index centers (-1);
  c3 ← py_index centers (-2);
  let palette : gmap string string :=
    <["foreground-alt" := format_rgb (int_channels c3)]>
      (<["foreground" := format_rgb (int_channels c4)]>
         (<["background" := format_rgb (int_channels c0)]> ∅)) in
  shades ← mapM (fun factor => c1 ← py_index centers 1;
                                tweak_saturation c1 factor) shade_factors;
  Ok (assign_shades 1 shades palette).

Definition ex_centers : list color :=
  [(0, 0, 0); (255, 255, 255); (128, 128, 128); (10, 10, 10); (245, 245, 245)]%Q.


(** ** The world: files, directories and the standard output *)

Record world : Type := World {
  files : gmap string string;
  dirs : gset string;
  stdout : list string
}.

Definition nl : string := String "010"%char "".

(** [print(s)] *)
Definition print (s : string) (w : world) : world :=
  World (files w) (dirs w) (stdout w ++ [s]).

(** [os.path.exists(path)] *)
Definition path_exists (path : string) (w : world) : bool :=
  bool_decide (path ∈ dom (files w)) || bool_decide (path ∈ dirs w).

(** [with open(path, "w") as f: f.write(content)]: the file is created or
    truncated; opening a directory fails. *)
Definition write_file (path content : string) (w : world) : result unit * world :=
  if bool_decide (path ∈ dirs w) then (Raise (IsADirectoryError path), w)
  else (Ok (), World (<[path := content]> (files w)) (dirs w) (stdout w)).

(** [os.makedirs(path, exist_ok=True)]; directories are recorded by their
    full path. *)
Definition makedirs (path : string) (w : world) : result unit * world :=
  if bool_decide (path ∈ dom (files w)) then (Raise (FileExistsError path), w)
  else (Ok (), World (files w) ({[path]} ∪ dirs w) (stdout w)).

Fixpoint ends_with (c : ascii) (s : string) : bool :=
  match s with
  | EmptyString => false
  | String a EmptyString => bool_decide (a = c)
  | String _ s' => ends_with c s'
  end.

(** [os.path.join(a, b)] (posixpath) *)
Definition path_join (a b : string) : string :=
  if String.prefix "/" b then b
  else if bool_decide (a = "") || ends_with "/"%char a then a +:+ b
  else a +:+ "/" +:+ b.

(** ** The serializers *)

(** [palette[key]] *)
Definition getitem (palette : gmap string string) (key : string) : result string :=
  match palette !! key with
  | Some v => Ok v
  | None => Raise (KeyError key)
  end.

(** [palette.get(key, default)] *)
Definition get (palette : gmap string string) (key default : string) : string :=
  match palette !! key with
  | Some v => v
  | None => default
  end.

(** [not palette], for a palette that is [None] or a dict. *)
Definition falsy (palette : option (gmap string string)) : bool :=
  match palette with
  | None => true
  | Some m => bool_decide (m = ∅)
  end.

(** A section of a [ConfigParser]: options in insertion order, an option
    with value [None] being written as its bare name. *)
Definition section : Type := list (string * option string).

(** [config["color"][key] = value].  The parser stores a value as it is
    given; it refuses values with a malformed ['%'] interpolation, which
    the hex colours of a palette never contain, so the properties of the
    INI writer are stated for palettes whose values are hex colours. *)
Fixpoint set_option (key : string) (value : string) (sec : section) : section :=
  match sec with
  | [] => [(key, Some value)]
  | (k, v) :: sec' =>
      if bool_decide (k = key) then (k, Some value) :: sec'
      else (k, v) :: set_option key value sec'
  end.

(** [str(value).replace("\n", "\n\t")], as [ConfigParser.write] does. *)
Fixpoint indent_newlines (s : string) : string :=
  match s with
  | EmptyString => EmptyString
  | String a s' =>
      if bool_decide (a = "010"%char)
      then String a (String "009"%char (indent_newlines s'))
      else String a (indent_newlines s')
  end.

Definition write_option (kv : string * option string) : string :=
  match kv with
  | (k, Some v) => k +:+ " = " +:+ indent_newlines v +:+ nl
  | (k, None) => k +:+ nl
  end.

(** [config.write(configfile)] for a parser whose only section is [name]. *)
Definition write_config (name : string) (sec : section) : string :=
  "[" +:+ name +:+ "]" +:+ nl +:+ String.concat "" (map write_option sec) +:+ nl.

(** [for i in range(i, 9): config["color"][f"shade{i}"] = palette[f"shade{i}"]],
    [n] being the number of iterations left. *)
Fixpoint copy_shades (n : nat) (i : Z) (palette : gmap string string)
    (sec : section) : result section :=
  match n with
  | O => Ok sec
  | S n' =>
      v ← getitem palette ("shade" +:+ py_str i);
      copy_shades n' (i + 1) palette (set_option ("shade" +:+ py_str i) v sec)
  end.

Definition ini_section (palette : gmap string string) : result section :=
  bg ← getitem palette "background";
  fg ← getitem palette "foreground";
  fa ← getitem palette "foreground-alt";
  copy_shades 8 1 palette
    [("; main colors", None);
     ("background", Some bg);
     ("foreground", Some fg);
     ("foreground-alt", Some fa);
     (nl +:+ "; shades", None)].

Definition save_palette_to_ini (palette : option (gmap string string))
    (output_path : string) (w : world) : result unit * world :=
  if falsy palette then (Ok (), w)
  else
    match ini_section (default ∅ palette) with
    | Raise e => (Raise e, w)
    | Ok sec =>
        match write_file output_path (write_config "color" sec) w with
        | (Raise e, w') => (Raise e, w')
        | (Ok _, w') => (Ok (), print ("Palette saved to " +:+ output_path) w')
        end
    end.

Definition rasi_content (palette : gmap string string) : result string :=
  let c0 := "/* colors */" +:+ nl +:+ nl +:+ "* {" +:+ nl in
  let c1 := c0 +:+ "  al:    #00000000;" +:+ nl in
  bg ← getitem palette "background";
  let c2 := c1 +:+ "  bg:    " +:+ bg +:+ "FF;" +:+ nl in
  let c3 := c2 +:+ "  bg1:   " +:+ get palette "shade1" "#000000" +:+ "FF;" +:+ nl in
  let c4 := c3 +:+ "  bg2:   " +:+ get palette "shade2" "#000000" +:+ "FF;" +:+ nl in
  let c5 := c4 +:+ "  bg3:   " +:+ get palette "shade3" "#000000" +:+ "FF;" +:+ nl in
  let c6 := c5 +:+ "  bg4:   " +:+ get palette "shade4" "#000000" +:+ "FF;" +:+ nl in
  fg ← getitem palette "foreground";
  let c7 := c6 +:+ "  fg:    " +:+ fg +:+ "FF;" +:+ nl in
  Ok (c7 +:+ "}" +:+ nl).

Definition save_palette_to_rasi (palette : option (gmap string string))
    (output_path : string) (w : world) : result unit * world :=
  if falsy palette then (Ok (), w)
  else
    match rasi_content (default ∅ palette) with
    | Raise e => (Raise e, w)
    | Ok content =>
        match write_file output_path content w with
        | (Raise e, w') => (Raise e, w')
        | (Ok _, w') => (Ok (), print ("RASI palette saved to " +:+ output_path) w')
        end
    end.

(** ** The pipeline and the command line *)

(** A pixel of the decoded image: three 8-bit channels, red first. *)
Definition pixel : Type := Byte.byte * Byte.byte * Byte.byte.

Definition channel (b : Byte.byte) : Q := inject_Z (Z.of_N (Byte.to_N b)).

Definition pixel_color (p : pixel) : color :=
  let '(r, g, b) := p in (channel r, channel g, channel b).

#[global] Instance byte_eq_dec : EqDecision Byte.byte := Byte.byte_eq_dec.

(** The number of distinct colours of a pixel sequence. *)
Definition distinct_colors (image : list pixel) : nat :=
  length (remove_dups image).

(** A centroid whose channels lie in the range of the pixels. *)
Definition in_gamut (c : color) : Prop :=
  let '(r, g, b) := c in
  (0 <= r <= 255 /\ 0 <= g <= 255 /\ 0 <= b <= 255)%Q.

Record args : Type := Args { image_path : string; output_dir : string }.

Inductive outcome : Type :=
  | Returned
  | Exited (status : Z)
  | Uncaught (e : exn).

Section Pipeline.
(** The two libraries the program calls and that are not part of it:
    [imread_rgb] is [cv2.imread], [cv2.cvtColor] and [reshape] (lines
    15-17), [kmeans_fit] is [KMeans(n_clusters=5).fit(image)] followed by
    [cluster_centers_] (lines 20-22). *)
Variable imread_rgb : string -> result (list pixel).
Variable kmeans_fit : list pixel -> result (list color).

Definition extract_colors (path : string) : result (gmap string string) :=
  image ← imread_rgb path;
  cluster_centers ← kmeans_fit image;
  compose_palette cluster_centers.

Definition main (a : args) (w : world) : outcome * world :=
  if negb (path_exists (image_path a) w) then
    (Exited 1,
     print ("Error: Image file '" +:+ image_path a +:+ "' not found") w)
  else
    match makedirs (output_dir a) w with
    | (Raise e, w1) => (Uncaught e, w1)
    | (Ok _, w1) =>
        let ini_path := path_join (output_dir a) "out.ini" in
        let rasi_path := path_join (output_dir a) "out.rasi" in
        match extract_colors (image_path a) with
        | Raise e => (Uncaught e, w1)
        | Ok palette =>
            if falsy (Some palette) then (Returned, w1)
            else
              match save_palette_to_ini (Some palette) ini_path w1 with
              | (Raise e, w2) => (Uncaught e, w2)
              | (Ok _, w2) =>
                  match save_palette_to_rasi (Some palette) rasi_path w2 with
                  | (Raise e, w3) => (Uncaught e, w3)
                  | (Ok _, w3) => (Returned, w3)
                  end
              end
        end
    end.
End Pipeline.


(** ** Hex colour strings *)

Definition is_lower_hex (c : ascii) : bool :=
  existsb (Ascii.eqb c)
    ["0"; "1"; "2"; "3"; "4"; "5"; "6"; "7"; "8"; "9";
     "a"; "b"; "c"; "d"; "e"; "f"]%char.

(** ['#'] followed by exactly six lowercase hexadecimal digits. *)
Definition is_hex_color (s : string) : bool :=
  match s with
  | String "#" rest =>
      (String.length rest =? 6)%nat
      && forallb is_lower_hex (list_ascii_of_string rest)
  | _ => false
  end.

(** Two hexadecimal digits of a value in [0,255]. *)
Definition two_hex (n : Z) : string :=
  String (digit_char (n / 16)) (String (digit_char (n mod 16)) "").

Definition is_two_hex (s : string) : bool :=
  match s with
  | String a (String b EmptyString) => is_lower_hex a && is_lower_hex b
  | _ => false
  end.

(** The eleven names of a palette. *)
Definition palette_keys : gset string :=
  {[ "background"; "foreground"; "foreground-alt";
     "shade1"; "shade2"; "shade3"; "shade4";
     "shade5"; "shade6"; "shade7"; "shade8" ]}.

(** A shade computed from [base] with [factor], its channels being bytes. *)
Definition shade_of (base : color) (factor : Q) (shade : Z * Z * Z) : Prop :=
  tweak_saturation base factor = Ok shade /\
  0 <= shade.1.1 <= 255 /\ 0 <= shade.1.2 <= 255 /\ 0 <= shade.2 <= 255.

(** Every value of the palette is a hex colour string. *)
Definition hex_valued (palette : gmap string string) : Prop :=
  map_Forall (fun _ v => is_hex_color v = true) palette.



(** ** Encodings used to state the properties *)














(** ** The text of the INI file *)



(** The keys the INI writer reads, in the order it reads them. *)
Definition required_keys : list string :=
  ["background"; "foreground"; "foreground-alt";
   "shade1"; "shade2"; "shade3"; "shade4";
   "shade5"; "shade6"; "shade7"; "shade8"].


(** ** The contract of the clustering library *)

(** Modelled from the spec: the clustering primitive
    ([sklearn.cluster.KMeans]) is a library that is not part of src/; on a
    pixel sequence with at least five distinct colours it returns exactly
    five centroids, each a mean of pixels and so within the range of the
    channels. *)
Definition clusterer_succeeds (kmeans_fit : list pixel -> result (list color))
    : Prop :=
  forall image, (5 <= distinct_colors image)%nat ->
    exists centers, kmeans_fit image = Ok centers /\
                    length centers = 5%nat /\ Forall in_gamut centers.


(** ** Sample inputs *)

Definition gray (b : Byte.byte) : pixel := (b, b, b).

Definition five_grays : list pixel :=
  [gray Byte.x00; gray Byte.xff; gray Byte.x80; gray Byte.x0a; gray Byte.xf5].


(** A decoder that finds [image] at every path. *)
Definition read_as (image : list pixel) (path : string) : result (list pixel) :=
  Ok image.

(** A clusterer that takes the first five distinct colours as centroids. *)
Definition first_colors (image : list pixel) : result (list color) :=
  let colors := remove_dups image in
  if (length colors <? 5)%nat then Raise ClusteringError
  else Ok (pixel_color <$> take 5 colors).

(** The palette of the sample centroids. *)
Definition ex_palette : gmap string string :=
  assign_shades 1 (replicate 8 (10, 10, 10))
    (<["foreground-alt" := "#f5f5f5"]>
       (<["foreground" := "#ffffff"]> (<["background" := "#000000"]> ∅))).


Definition empty_world : world := World ∅ ∅ [].



(** A world that holds the image and nothing else. *)
Definition sample_world : world :=
  World {["wall.png" := "image bytes"]} ∅ [].

(** * Properties *)

(** ** Rational arithmetic *)

Lemma Qle_bool_false (x y : Q) : Qle_bool x y = false -> (y < x)%Q.
Proof.
  intros E. apply Qnot_le_lt. intros H.
  apply Qle_bool_iff in H. congruence.
Qed.

Ltac qcase :=
  match goal with
  | |- context [Qeq_bool ?a ?b] =>
      let E := fresh "E" in
      destruct (Qeq_bool a b) eqn:E;
      [apply Qeq_bool_iff in E | apply Qeq_bool_neq in E]
  | |- context [Qle_bool ?a ?b] =>
      let E := fresh "E" in
      destruct (Qle_bool a b) eqn:E;
      [apply Qle_bool_iff in E | apply Qle_bool_false in E]
  end.

Lemma py_mod1_range (x : Q) : (0 <= py_mod1 x < 1)%Q.
Proof.
  unfold py_mod1.
  pose proof (Qfloor_le x) as Hlo.
  pose proof (Qlt_floor x) as Hhi.
  rewrite inject_Z_plus in Hhi.
  change (inject_Z 1) with 1%Q in Hhi.
  split; lra.
Qed.

Lemma py_int_floor (x : Q) : (0 <= x)%Q -> py_int x = Qfloor x.
Proof.
  intros Hx. destruct x as [n d]. unfold py_int, Qfloor. simpl.
  apply Z.quot_div_nonneg; [| lia].
  unfold Qle in Hx. simpl in Hx. lia.
Qed.

Lemma py_int_range (x : Q) : (0 <= x <= 255)%Q -> 0 <= py_int x <= 255.
Proof.
  intros [Hlo Hhi]. rewrite py_int_floor by exact Hlo.
  split.
  - change 0 with (Qfloor 0). now apply Qfloor_resp_le.
  - change 255 with (Qfloor 255). now apply Qfloor_resp_le.
Qed.

(** ** colorsys *)

Lemma v_between (m1 m2 hue : Q) :
  (m1 <= m2)%Q -> (m1 <= _v m1 m2 hue <= m2)%Q.
Proof.
  intros Hm. unfold _v, Qlt_bool.
  destruct (py_mod1_range hue) as [H0 H1].
  set (t := py_mod1 hue) in *.
  repeat (qcase; simpl); try lra.
  - split; nra.
  - split; nra.
Qed.

Lemma hls_to_rgb_unit (h l s : Q) :
  (0 <= l <= 1)%Q -> (0 <= s <= 1)%Q ->
  let '(r, g, b) := hls_to_rgb h l s in
  (0 <= r <= 1 /\ 0 <= g <= 1 /\ 0 <= b <= 1)%Q.
Proof.
  intros Hl Hs. unfold hls_to_rgb.
  qcase; [cbn; lra |].
  set (m2 := if Qle_bool l (1 # 2) then _ else _).
  assert (Hm : (2 * l - m2 <= m2 /\ 0 <= 2 * l - m2 /\ m2 <= 1)%Q).
  { subst m2. qcase; repeat split; nra. }
  destruct Hm as (Hm & Hlo & Hhi).
  pose proof (v_between _ _ (h + (1 # 3)) Hm).
  pose proof (v_between _ _ h Hm).
  pose proof (v_between _ _ (h - (1 # 3)) Hm).
  cbn. repeat split; lra.
Qed.

Lemma py_div_ok (a b : Q) : ~ (b == 0)%Q -> py_div a b = Ok (a / b)%Q.
Proof.
  intros Hb. unfold py_div.
  destruct (Qeq_bool b 0) eqn:E; [| reflexivity].
  apply Qeq_bool_iff in E. contradiction.
Qed.

Lemma Qmax3_spec (r g b : Q) :
  (r <= Qmax (Qmax r g) b /\ g <= Qmax (Qmax r g) b /\ b <= Qmax (Qmax r g) b /\
   (Qmax (Qmax r g) b == r \/ Qmax (Qmax r g) b == g \/ Qmax (Qmax r g) b == b))%Q.
Proof.
  destruct (Q.max_spec r g) as [[? ?] | [? ?]];
    destruct (Q.max_spec (Qmax r g) b) as [[? ?] | [? ?]];
    repeat split; try lra; auto; right; auto.
Qed.

Lemma Qmin3_spec (r g b : Q) :
  (Qmin (Qmin r g) b <= r /\ Qmin (Qmin r g) b <= g /\ Qmin (Qmin r g) b <= b /\
   (Qmin (Qmin r g) b == r \/ Qmin (Qmin r g) b == g \/ Qmin (Qmin r g) b == b))%Q.
Proof.
  destruct (Q.min_spec r g) as [[? ?] | [? ?]];
    destruct (Q.min_spec (Qmin r g) b) as [[? ?] | [? ?]];
    repeat split; try lra; auto; right; auto.
Qed.

Lemma clamp_unit (x : Q) : (0 <= Qmin (Qmax x 0) 1 <= 1)%Q.
Proof.
  destruct (Q.max_spec x 0) as [[? ?] | [? ?]];
    destruct (Q.min_spec (Qmax x 0) 1) as [[? ?] | [? ?]]; split; lra.
Qed.

(** On channels in [0,1] the conversion raises no [ZeroDivisionError] and
    the lightness is in [0,1]. *)
Lemma rgb_to_hls_unit (r g b : Q) :
  (0 <= r <= 1)%Q -> (0 <= g <= 1)%Q -> (0 <= b <= 1)%Q ->
  exists h l s, rgb_to_hls r g b = Ok (h, l, s) /\ (0 <= l <= 1)%Q.
Proof.
  intros Hr Hg Hb. unfold rgb_to_hls. cbv zeta.
  destruct (Qmax3_spec r g b) as (M1 & M2 & M3 & M4).
  destruct (Qmin3_spec r g b) as (N1 & N2 & N3 & N4).
  set (maxc := Qmax (Qmax r g) b) in *.
  set (minc := Qmin (Qmin r g) b) in *.
  clearbody maxc minc.
  assert (Hmax : (0 <= maxc <= 1)%Q) by (destruct M4 as [M | [M | M]]; lra).
  assert (Hmin : (0 <= minc <= 1)%Q) by (destruct N4 as [N | [N | N]]; lra).
  assert (Hl : (0 <= (maxc + minc) / 2 <= 1)%Q).
  { unfold Qdiv. change (/ 2)%Q with (1 # 2)%Q. split; lra. }
  destruct (Qeq_bool minc maxc) eqn:E.
  { eauto. }
  apply Qeq_bool_neq in E.
  assert (Hrange : ~ (maxc - minc == 0)%Q) by (intros H; apply E; lra).
  rewrite !(py_div_ok _ (maxc - minc)%Q) by exact Hrange.
  destruct (Qle_bool ((maxc + minc) / 2) (1 # 2)) eqn:El.
  - rewrite py_div_ok by (intros H; apply E; lra). cbn. eauto.
  - apply Qle_bool_false in El.
    unfold Qdiv in El. change (/ 2)%Q with (1 # 2)%Q in El.
    rewrite py_div_ok by (intros H; apply E; lra). cbn. eauto.
Qed.

Lemma in_gamut_unit (x : Q) : (0 <= x <= 255)%Q -> (0 <= x / 255 <= 1)%Q.
Proof.
  intros [H0 H1]. unfold Qdiv. change (/ 255)%Q with (1 # 255)%Q. split; lra.
Qed.

Lemma unit_scaled (x : Q) : (0 <= x <= 1)%Q -> (0 <= x * 255 <= 255)%Q.
Proof. intros [H0 H1]. split; lra. Qed.

(** What [tweak_saturation] computes on a centroid of the gamut: the
    conversion to HLS succeeds, the channels that come back from
    [hls_to_rgb] are in [0,1], and the integers returned are in [0,255]. *)
Lemma tweak_saturation_gamut (rgb : color) (factor : Q) :
  in_gamut rgb ->
  exists h l s r g b,
    rgb_to_hls (rgb.1.1 / 255) (rgb.1.2 / 255) (rgb.2 / 255) = Ok (h, l, s) /\
    hls_to_rgb h l (Qmin (Qmax (s * factor) 0) 1) = (r, g, b) /\
    (0 <= r <= 1 /\ 0 <= g <= 1 /\ 0 <= b <= 1)%Q /\
    tweak_saturation rgb factor
      = Ok (py_int (r * 255), py_int (g * 255), py_int (b * 255)) /\
    0 <= py_int (r * 255) <= 255 /\
    0 <= py_int (g * 255) <= 255 /\
    0 <= py_int (b * 255) <= 255.
Proof.
  destruct rgb as [[r0 g0] b0]. intros (Hr & Hg & Hb). cbn [fst snd].
  destruct (rgb_to_hls_unit _ _ _ (in_gamut_unit _ Hr) (in_gamut_unit _ Hg)
              (in_gamut_unit _ Hb)) as (h & l & s & Hhls & Hl).
  pose proof (hls_to_rgb_unit h l _ Hl (clamp_unit (s * factor))) as Hrgb.
  destruct (hls_to_rgb h l (Qmin (Qmax (s * factor) 0) 1)) as [[r g] b] eqn:Eback.
  destruct Hrgb as (Hr1 & Hg1 & Hb1).
  exists h, l, s, r, g, b.
  split; [exact Hhls |]. split; [exact Eback |]. split; [auto |].
  split.
  - unfold tweak_saturation. rewrite Hhls. cbn. rewrite Eback. reflexivity.
  - auto using py_int_range, unit_scaled.
Qed.

(** ** Formatting *)

Lemma format_02x_table :
  Forall (fun n => format_02x n = two_hex n /\ is_two_hex (two_hex n) = true)
    (seqZ 0 256).
Proof. apply (bool_decide_unpack _). vm_compute. exact I. Qed.

Lemma format_02x_byte (n : Z) :
  0 <= n <= 255 ->
  format_02x n = two_hex n /\ is_two_hex (two_hex n) = true.
Proof.
  intros Hn. pose proof format_02x_table as T.
  rewrite Forall_forall in T. apply T. apply elem_of_seqZ. lia.
Qed.

Lemma is_hex_color_concat (x y z : string) :
  is_two_hex x = true -> is_two_hex y = true -> is_two_hex z = true ->
  is_hex_color ("#" +:+ x +:+ y +:+ z) = true.
Proof.
  destruct x as [| x1 [| x2 [| ? ?]]]; try discriminate.
  destruct y as [| y1 [| y2 [| ? ?]]]; try discriminate.
  destruct z as [| z1 [| z2 [| ? ?]]]; try discriminate.
  cbn -[is_lower_hex]. intros Hx Hy Hz. cbv -[is_lower_hex].
  apply andb_prop in Hx as [-> ->].
  apply andb_prop in Hy as [-> ->].
  apply andb_prop in Hz as [-> ->].
  reflexivity.
Qed.

Lemma format_rgb_byte (r g b : Z) :
  0 <= r <= 255 -> 0 <= g <= 255 -> 0 <= b <= 255 ->
  format_rgb (r, g, b) = "#" +:+ two_hex r +:+ two_hex g +:+ two_hex b /\
  is_hex_color (format_rgb (r, g, b)) = true.
Proof.
  intros Hr Hg Hb. unfold format_rgb.
  destruct (format_02x_byte r Hr) as [-> Tr].
  destruct (format_02x_byte g Hg) as [-> Tg].
  destruct (format_02x_byte b Hb) as [-> Tb].
  split; [reflexivity |].
  now apply is_hex_color_concat.
Qed.

Lemma int_channels_gamut (c : color) :
  in_gamut c ->
  0 <= (int_channels c).1.1 <= 255 /\
  0 <= (int_channels c).1.2 <= 255 /\
  0 <= (int_channels c).2 <= 255.
Proof.
  destruct c as [[r g] b]. intros (Hr & Hg & Hb). cbn.
  auto using py_int_range.
Qed.

Lemma format_center_hex (c : color) :
  in_gamut c -> is_hex_color (format_rgb (int_channels c)) = true.
Proof.
  intros Hc. destruct (int_channels_gamut c Hc) as (Hr & Hg & Hb).
  destruct (int_channels c) as [[r g] b]. cbn in *.
  now apply format_rgb_byte.
Qed.

(** ** Sorting by a key *)

Section SortedFacts.
Context {A : Type} (key : A -> Q).

Lemma insert_by_Permutation (x : A) (l : list A) :
  insert_by key x l ≡ₚ x :: l.
Proof.
  induction l as [| y l IH]; cbn; [reflexivity |].
  destruct (Qle_bool (key x) (key y)); [reflexivity |].
  rewrite IH. apply Permutation_swap.
Qed.

Lemma sorted_Permutation (l : list A) : sorted key l ≡ₚ l.
Proof.
  induction l as [| x l IH]; cbn; [reflexivity |].
  rewrite insert_by_Permutation. now rewrite IH.
Qed.

Lemma sorted_length (l : list A) : length (sorted key l) = length l.
Proof. apply Permutation_length, sorted_Permutation. Qed.



End SortedFacts.

(** ** The composer on five centroids *)

Lemma mapM_Forall2 {A B : Type} (f : A -> result B) (P : A -> B -> Prop)
    (l : list A) :
  (forall x, x ∈ l -> exists y, f x = Ok y /\ P x y) ->
  exists ys, mapM f l = Ok ys /\ Forall2 P l ys.
Proof.
  induction l as [| x l IH]; intros H; cbn.
  - exists []. split; [reflexivity | constructor].
  - destruct (H x) as (y & Hy & Py); [left |].
    destruct IH as (ys & Hys & Pys); [intros z Hz; apply H; now right |].
    exists (y :: ys). rewrite Hy. cbn. rewrite Hys. cbn.
    split; [reflexivity | now constructor].
Qed.

Lemma mapM_Ok_Forall2 {A B : Type} (f : A -> result B) (l : list A)
    (ys : list B) :
  mapM f l = Ok ys -> Forall2 (fun x y => f x = Ok y) l ys.
Proof.
  revert ys. induction l as [| x l IH]; intros ys; cbn.
  - intros [= <-]. constructor.
  - destruct (f x) as [y |] eqn:Hy; cbn; [| discriminate].
    destruct (mapM f l) as [ys' |]; cbn; [| discriminate].
    intros [= <-]. constructor; auto.
Qed.

Lemma sorted_five {A : Type} (key : A -> Q) (l : list A) :
  length l = 5%nat ->
  exists s0 s1 s2 s3 s4, sorted key l = [s0; s1; s2; s3; s4].
Proof.
  intros Hl. rewrite <- (sorted_length key) in Hl.
  destruct (sorted key l) as [| s0 [| s1 [| s2 [| s3 [| s4 [| ? ?]]]]]];
    try discriminate.
  eauto 6.
Qed.

(** The palette built from the roles and the shades, as lines 39-54 build it. *)
Lemma compose_palette_sorted (cs : list color) (s0 s1 s2 s3 s4 : color) :
  sorted luminance cs = [s0; s1; s2; s3; s4] ->
  compose_palette cs =
    (shades ← mapM (tweak_saturation s1) shade_factors;
     Ok (assign_shades 1 shades
           (<["foreground-alt" := format_rgb (int_channels s3)]>
              (<["foreground" := format_rgb (int_channels s4)]>
                 (<["background" := format_rgb (int_channels s0)]> ∅))))).
Proof. intros E. unfold compose_palette. rewrite E. reflexivity. Qed.

Lemma assign_shades_eight (a b c d e f g h : Z * Z * Z)
    (palette : gmap string string) :
  assign_shades 1 [a; b; c; d; e; f; g; h] palette =
    <["shade1" := format_rgb h]> (<["shade2" := format_rgb g]>
    (<["shade3" := format_rgb f]> (<["shade4" := format_rgb e]>
    (<["shade5" := format_rgb d]> (<["shade6" := format_rgb c]>
    (<["shade7" := format_rgb b]> (<["shade8" := format_rgb a]> palette))))))).
Proof. reflexivity. Qed.

Lemma shade_of_gamut (base : color) (factor : Q) :
  in_gamut base -> exists shade, shade_of base factor shade.
Proof.
  intros Hb.
  destruct (tweak_saturation_gamut base factor Hb)
    as (h & l & s & r & g & b & _ & _ & _ & Ht & Hr & Hg & Hbl).
  eexists. split; [exact Ht |]. cbn. auto.
Qed.

Lemma shade_of_hex (base : color) (factor : Q) (shade : Z * Z * Z) :
  shade_of base factor shade -> is_hex_color (format_rgb shade) = true.
Proof.
  destruct shade as [[r g] b]. intros (_ & Hr & Hg & Hb). cbn in *.
  now apply format_rgb_byte.
Qed.

Lemma compose_palette_gamut (cs : list color) :
  length cs = 5%nat -> Forall in_gamut cs ->
  exists s0 s1 s2 s3 s4 a b c d e f g h,
    sorted luminance cs = [s0; s1; s2; s3; s4] /\
    Forall in_gamut [s0; s1; s2; s3; s4] /\
    Forall2 (shade_of s1) shade_factors [a; b; c; d; e; f; g; h] /\
    compose_palette cs =
      Ok (assign_shades 1 [a; b; c; d; e; f; g; h]
            (<["foreground-alt" := format_rgb (int_channels s3)]>
               (<["foreground" := format_rgb (int_channels s4)]>
                  (<["background" := format_rgb (int_channels s0)]> ∅)))).
Proof.
  intros Hl Hg.
  destruct (sorted_five luminance cs Hl) as (s0 & s1 & s2 & s3 & s4 & E).
  assert (Hs : Forall in_gamut [s0; s1; s2; s3; s4]).
  { rewrite <- E. now rewrite sorted_Permutation. }
  assert (H1 : in_gamut s1).
  { rewrite Forall_forall in Hs. apply Hs. set_solver. }
  destruct (mapM_Forall2 (tweak_saturation s1) (shade_of s1) shade_factors)
    as (shades & Hm & Hf).
  { intros x _. destruct (shade_of_gamut s1 x H1) as (sh & Hsh).
    exists sh. split; [apply Hsh | exact Hsh]. }
  pose proof (Forall2_length _ _ _ Hf) as Hlen. cbn in Hlen.
  destruct shades as [| a [| b [| c [| d [| e [| f [| g [| h [| ? ?]]]]]]]]];
    try discriminate.
  exists s0, s1, s2, s3, s4, a, b, c, d, e, f, g, h.
  split; [exact E |]. split; [exact Hs |]. split; [exact Hf |].
  rewrite (compose_palette_sorted cs _ _ _ _ _ E), Hm. reflexivity.
Qed.

Lemma palette_dom (a b c d e f g h : Z * Z * Z) (bg fg fa : string) :
  dom (assign_shades 1 [a; b; c; d; e; f; g; h]
         (<["foreground-alt" := fa]>
            (<["foreground" := fg]> (<["background" := bg]> ∅))))
  = palette_keys.
Proof.
  rewrite assign_shades_eight, !dom_insert_L, dom_empty_L.
  unfold palette_keys. set_solver.
Qed.

Lemma compose_palette_well_formed (cs : list color) :
  length cs = 5%nat -> Forall in_gamut cs ->
  exists palette,
    compose_palette cs = Ok palette /\
    dom palette = palette_keys /\ hex_valued palette.
Proof.
  intros Hl Hg.
  destruct (compose_palette_gamut cs Hl Hg)
    as (s0 & s1 & s2 & s3 & s4 & a & b & c & d & e & f & g & h
        & E & Hs & Hf & Hc).
  eexists. split; [exact Hc |]. split; [apply palette_dom |].
  rewrite assign_shades_eight. unfold shade_factors in Hf.
  repeat match goal with
         | H : Forall2 _ (_ :: _) (_ :: _) |- _ =>
             apply Forall2_cons in H; destruct H as [? H]
         | H : Forall in_gamut (_ :: _) |- _ =>
             apply Forall_cons in H; destruct H as [? H]
         end.
  unfold hex_valued.
  repeat (apply map_Forall_insert_2;
          [solve [eauto using shade_of_hex, format_center_hex] |]).
  apply map_Forall_empty.
Qed.

(** ** The serializers *)


Lemma ini_section_unfold (palette : gmap string string) :
  ini_section palette =
    (bg ← getitem palette "background";
     fg ← getitem palette "foreground";
     fa ← getitem palette "foreground-alt";
     s1 ← getitem palette "shade1";
     s2 ← getitem palette "shade2";
     s3 ← getitem palette "shade3";
     s4 ← getitem palette "shade4";
     s5 ← getitem palette "shade5";
     s6 ← getitem palette "shade6";
     s7 ← getitem palette "shade7";
     s8 ← getitem palette "shade8";
     Ok [("; main colors", None);
         ("background", Some bg);
         ("foreground", Some fg);
         ("foreground-alt", Some fa);
         (nl +:+ "; shades", None);
         ("shade1", Some s1); ("shade2", Some s2); ("shade3", Some s3);
         ("shade4", Some s4); ("shade5", Some s5); ("shade6", Some s6);
         ("shade7", Some s7); ("shade8", Some s8)]).
Proof.
  unfold ini_section.
  destruct (getitem palette "background"); [| reflexivity].
  destruct (getitem palette "foreground"); [| reflexivity].
  destruct (getitem palette "foreground-alt"); [| reflexivity].
  cbn [mbind result_bind copy_shades].
  change ("shade" +:+ py_str 1) with "shade1".
  destruct (getitem palette "shade1"); [| reflexivity].
  change ("shade" +:+ py_str (1 + 1)) with "shade2".
  destruct (getitem palette "shade2"); [| reflexivity].
  change ("shade" +:+ py_str (1 + 1 + 1)) with "shade3".
  destruct (getitem palette "shade3"); [| reflexivity].
  change ("shade" +:+ py_str (1 + 1 + 1 + 1)) with "shade4".
  destruct (getitem palette "shade4"); [| reflexivity].
  change ("shade" +:+ py_str (1 + 1 + 1 + 1 + 1)) with "shade5".
  destruct (getitem palette "shade5"); [| reflexivity].
  change ("shade" +:+ py_str (1 + 1 + 1 + 1 + 1 + 1)) with "shade6".
  destruct (getitem palette "shade6"); [| reflexivity].
  change ("shade" +:+ py_str (1 + 1 + 1 + 1 + 1 + 1 + 1)) with "shade7".
  destruct (getitem palette "shade7"); [| reflexivity].
  change ("shade" +:+ py_str (1 + 1 + 1 + 1 + 1 + 1 + 1 + 1)) with "shade8".
  destruct (getitem palette "shade8"); reflexivity.
Qed.


Lemma elem_of_palette_keys (key : string) :
  key ∈ palette_keys <->
  key = "background" \/ key = "foreground" \/ key = "foreground-alt" \/
  key = "shade1" \/ key = "shade2" \/ key = "shade3" \/ key = "shade4" \/
  key = "shade5" \/ key = "shade6" \/ key = "shade7" \/ key = "shade8".
Proof.
  unfold palette_keys. rewrite !elem_of_union, !elem_of_singleton. tauto.
Qed.


(** ** The sample clusterer meets the contract *)

Lemma channel_gamut (b : Byte.byte) : (0 <= channel b <= 255)%Q.
Proof.
  unfold channel. pose proof (Byte.to_N_bounded b) as Hb.
  split; unfold Qle; cbn; lia.
Qed.

Lemma pixel_color_gamut (p : pixel) : in_gamut (pixel_color p).
Proof. destruct p as [[r g] b]. cbn. auto using channel_gamut. Qed.

Lemma first_colors_succeeds : clusterer_succeeds first_colors.
Proof.
  intros image Hn. unfold first_colors, distinct_colors in *.
  destruct (Nat.ltb_spec (length (remove_dups image)) 5) as [Hlt | _]; [lia |].
  eexists. split; [reflexivity |]. split.
  - rewrite length_fmap, length_take. lia.
  - apply Forall_fmap, Forall_forall. intros p _. apply pixel_color_gamut.
Qed.


(** What a composed palette is made of. *)
Lemma compose_palette_inv (cs : list color) (palette : gmap string string) :
  compose_palette cs = Ok palette ->
  exists c0 c1 c3 c4 a b c d e f g h,
    py_index (sorted luminance cs) 0 = Ok c0 /\
    py_index (sorted luminance cs) 1 = Ok c1 /\
    py_index (sorted luminance cs) (-2) = Ok c3 /\
    py_index (sorted luminance cs) (-1) = Ok c4 /\
    Forall2 (fun factor shade => tweak_saturation c1 factor = Ok shade)
      shade_factors [a; b; c; d; e; f; g; h] /\
    palette =
      <["shade1" := format_rgb h]> (<["shade2" := format_rgb g]>
      (<["shade3" := format_rgb f]> (<["shade4" := format_rgb e]>
      (<["shade5" := format_rgb d]> (<["shade6" := format_rgb c]>
      (<["shade7" := format_rgb b]> (<["shade8" := format_rgb a]>
      (<["foreground-alt" := format_rgb (int_channels c3)]>
      (<["foreground" := format_rgb (int_channels c4)]>
      (<["background" := format_rgb (int_channels c0)]> ∅)))))))))).
Proof.
  intros H. unfold compose_palette in H.
  destruct (py_index (sorted luminance cs) 0) as [c0 |]; [| discriminate].
  destruct (py_index (sorted luminance cs) (-1)) as [c4 |]; [| discriminate].
  destruct (py_index (sorted luminance cs) (-2)) as [c3 |]; [| discriminate].
  cbn [mbind result_bind] in H.
  destruct (mapM _ shade_factors) as [shades |] eqn:Hm; [| discriminate].
  injection H as <-.
  apply mapM_Ok_Forall2 in Hm.
  destruct (py_index (sorted luminance cs) 1) as [c1 |].
  2:{ apply Forall2_cons_inv_l in Hm as (? & ? & ? & _). discriminate. }
  cbn [mbind result_bind] in Hm.
  pose proof (Forall2_length _ _ _ Hm) as Hlen. cbn in Hlen.
  destruct shades as [| a [| b [| c [| d [| e [| f [| g [| h [| ? ?]]]]]]]]];
    try discriminate.
  exists c0, c1, c3, c4, a, b, c, d, e, f, g, h.
  rewrite assign_shades_eight. auto 10.
Qed.


(** The three roles of a composed palette. *)
Lemma compose_palette_roles (cs : list color) (palette : gmap string string) :
  compose_palette cs = Ok palette ->
  exists c0 c3 c4,
    py_index (sorted luminance cs) 0 = Ok c0 /\
    py_index (sorted luminance cs) (-2) = Ok c3 /\
    py_index (sorted luminance cs) (-1) = Ok c4 /\
    palette !! "background" = Some (format_rgb (int_channels c0)) /\
    palette !! "foreground-alt" = Some (format_rgb (int_channels c3)) /\
    palette !! "foreground" = Some (format_rgb (int_channels c4)).
Proof.
  intros H.
  destruct (compose_palette_inv cs palette H)
    as (c0 & c1 & c3 & c4 & a & b & c & d & e & f & g & h
        & H0 & _ & H3 & H4 & _ & ->).
  exists c0, c3, c4.
  repeat split; try assumption;
    repeat (rewrite lookup_insert_ne by discriminate);
    apply lookup_insert_eq.
Qed.



(** ** Reading a palette entry back *)











Lemma ex_centers_gamut : Forall in_gamut ex_centers.
Proof. repeat constructor; cbn; lra. Qed.

Lemma ex_centers_sorted :
  sorted luminance ex_centers
  = [(0, 0, 0); (10, 10, 10); (128, 128, 128); (245, 245, 245);
     (255, 255, 255)]%Q.
Proof. vm_compute. reflexivity. Qed.

Lemma ex_centers_palette : compose_palette ex_centers = Ok ex_palette.
Proof.
  rewrite (compose_palette_sorted _ _ _ _ _ _ ex_centers_sorted).
  replace (mapM (tweak_saturation (10, 10, 10)%Q) shade_factors)
    with (Ok (replicate 8 (10, 10, 10))) by (vm_compute; reflexivity).
  cbn [mbind result_bind]. unfold ex_palette.
  change (format_rgb (int_channels (245, 245, 245)%Q)) with "#f5f5f5".
  change (format_rgb (int_channels (255, 255, 255)%Q)) with "#ffffff".
  change (format_rgb (int_channels (0, 0, 0)%Q)) with "#000000".
  reflexivity.
Qed.

(** * The claims *)

(** C1.  With a clusterer that honours its contract, [extract_colors] on an
    image of at least five distinct colours returns a palette whose keys are
    exactly the eleven names background, foreground, foreground-alt and
    shade1 to shade8, and every value is ['#'] followed by six lowercase
    hexadecimal digits. *)
Theorem extract_colors_palette
    (imread_rgb : string -> result (list pixel))
    (kmeans_fit : list pixel -> result (list color))
    (path : string) (image : list pixel) :
  clusterer_succeeds kmeans_fit ->
  imread_rgb path = Ok image ->
  (5 <= distinct_colors image)%nat ->
  exists palette,
    extract_colors imread_rgb kmeans_fit path = Ok palette /\
    dom palette = palette_keys /\
    size palette = 11%nat /\
    hex_valued palette.
Proof.
  intros Hk Hread Hn.
  destruct (Hk image Hn) as (centers & Hfit & Hlen & Hg).
  destruct (compose_palette_well_formed centers Hlen Hg)
    as (palette & Hc & Hdom & Hhex).
  exists palette. unfold extract_colors. rewrite Hread. cbn. rewrite Hfit. cbn.
  split; [exact Hc |]. split; [exact Hdom |]. split; [| exact Hhex].
  rewrite <- size_dom, Hdom. reflexivity.
Qed.

Lemma extract_colors_palette_witness :
  exists palette,
    extract_colors (read_as five_grays) first_colors "wall.png" = Ok palette /\
    dom palette = palette_keys /\
    size palette = 11%nat /\
    hex_valued palette.
Proof.
  apply (extract_colors_palette (read_as five_grays) first_colors
           "wall.png" five_grays first_colors_succeeds eq_refl).
  vm_compute. lia.
Defined.



(** C6.  If the clustering step returns exactly the centroids (0,0,0),
    (255,255,255), (128,128,128), (10,10,10), (245,245,245), the palette
    has background #000000, foreground-alt #f5f5f5 and foreground #ffffff. *)
Theorem synthetic_palette
    (imread_rgb : string -> result (list pixel))
    (kmeans_fit : list pixel -> result (list color))
    (path : string) (image : list pixel) :
  imread_rgb path = Ok image ->
  kmeans_fit image = Ok ex_centers ->
  exists palette,
    extract_colors imread_rgb kmeans_fit path = Ok palette /\
    palette !! "background" = Some "#000000" /\
    palette !! "foreground-alt" = Some "#f5f5f5" /\
    palette !! "foreground" = Some "#ffffff".
Proof.
  intros Hread Hfit. unfold extract_colors.
  rewrite Hread. cbn [mbind result_bind]. rewrite Hfit. cbn [mbind result_bind].
  destruct (compose_palette_well_formed ex_centers eq_refl ex_centers_gamut)
    as (palette & Hc & _).
  exists palette. split; [exact Hc |].
  destruct (compose_palette_inv ex_centers palette Hc)
    as (c0 & c1 & c3 & c4 & a & b & c & d & e & f & g & h
        & H0 & _ & H3 & H4 & _ & ->).
  rewrite ex_centers_sorted in H0, H3, H4.
  injection H0 as <-. injection H3 as <-. injection H4 as <-.
  repeat split;
    repeat (rewrite lookup_insert_ne by discriminate);
    rewrite lookup_insert_eq; reflexivity.
Qed.

Lemma synthetic_palette_witness :
  exists palette,
    extract_colors (read_as five_grays) first_colors "wall.png" = Ok palette /\
    palette !! "background" = Some "#000000" /\
    palette !! "foreground-alt" = Some "#f5f5f5" /\
    palette !! "foreground" = Some "#ffffff".
Proof.
  apply (synthetic_palette (read_as five_grays) first_colors "wall.png"
           five_grays); reflexivity.
Defined.





(** C7.  When the image path does not exist, [main] prints
    "Error: Image file '<path>' not found" and exits with status 1; nothing
    else is printed, and no file or directory is created. *)
Theorem main_missing_image
    (imread_rgb : string -> result (list pixel))
    (kmeans_fit : list pixel -> result (list color))
    (a : args) (w : world) :
  path_exists (image_path a) w = false ->
  exists w',
    main imread_rgb kmeans_fit a w = (Exited 1, w') /\
    stdout w'
    = stdout w ++ ["Error: Image file '" +:+ image_path a +:+ "' not found"] /\
    files w' = files w /\
    dirs w' = dirs w.
Proof.
  intros Hex. unfold main. rewrite Hex. cbn [negb].
  eexists. split; [reflexivity |]. cbn. auto.
Qed.

Lemma main_missing_image_witness :
  exists w',
    main (read_as five_grays) first_colors (Args "./nope.png" ".") empty_world
    = (Exited 1, w') /\
    stdout w' = [] ++ ["Error: Image file './nope.png' not found"] /\
    files w' = ∅ /\
    dirs w' = ∅.
Proof.
  apply (main_missing_image (read_as five_grays) first_colors
           (Args "./nope.png" ".") empty_world).
  vm_compute. reflexivity.
Defined.

(** C8.  On a palette that is empty or absent both writers return normally
    and leave the world as it is: no file is written, nothing is printed,
    no exception is raised. *)
Theorem writers_skip_empty (palette : option (gmap string string))
    (output_path : string) (w : world) :
  falsy palette = true ->
  save_palette_to_ini palette output_path w = (Ok (), w) /\
  save_palette_to_rasi palette output_path w = (Ok (), w).
Proof.
  intros Hf. unfold save_palette_to_ini, save_palette_to_rasi.
  rewrite Hf. split; reflexivity.
Qed.

Lemma writers_skip_empty_witness :
  (save_palette_to_ini (Some ∅) "out.ini" sample_world = (Ok (), sample_world) /\
   save_palette_to_rasi (Some ∅) "out.ini" sample_world = (Ok (), sample_world))
  /\
  (save_palette_to_ini None "out.ini" sample_world = (Ok (), sample_world) /\
   save_palette_to_rasi None "out.ini" sample_world = (Ok (), sample_world)).
Proof.
  split.
  - apply (writers_skip_empty (Some ∅) "out.ini" sample_world). reflexivity.
  - apply (writers_skip_empty None "out.ini" sample_world). reflexivity.
Defined.










(** * Further properties of the writers *)




Lemma ini_section_full (palette : gmap string string) :
  palette_keys ⊆ dom palette ->
  exists bg fg fa s1 s2 s3 s4 s5 s6 s7 s8,
    palette !! "background" = Some bg /\ palette !! "foreground" = Some fg /\
    palette !! "foreground-alt" = Some fa /\
    palette !! "shade1" = Some s1 /\ palette !! "shade2" = Some s2 /\
    palette !! "shade3" = Some s3 /\ palette !! "shade4" = Some s4 /\
    palette !! "shade5" = Some s5 /\ palette !! "shade6" = Some s6 /\
    palette !! "shade7" = Some s7 /\ palette !! "shade8" = Some s8 /\
    ini_section palette =
      Ok [("; main colors", None);
          ("background", Some bg);
          ("foreground", Some fg);
          ("foreground-alt", Some fa);
          (nl +:+ "; shades", None);
          ("shade1", Some s1); ("shade2", Some s2); ("shade3", Some s3);
          ("shade4", Some s4); ("shade5", Some s5); ("shade6", Some s6);
          ("shade7", Some s7); ("shade8", Some s8)].
Proof.
  intros Hsub.
  assert (Hk : forall k, k ∈ palette_keys -> exists v, palette !! k = Some v).
  { intros k Hk. apply Hsub, elem_of_dom in Hk. exact Hk. }
  assert (Hin : forall k, In k required_keys -> exists v, palette !! k = Some v).
  { intros k Hin. apply Hk, elem_of_palette_keys.
    cbn in Hin. intuition (subst; auto 12). }
  destruct (Hin "background") as (bg & Hbg); [cbn; tauto |].
  destruct (Hin "foreground") as (fg & Hfg); [cbn; tauto |].
  destruct (Hin "foreground-alt") as (fa & Hfa); [cbn; tauto |].
  destruct (Hin "shade1") as (s1 & H1); [cbn; tauto |].
  destruct (Hin "shade2") as (s2 & H2); [cbn; tauto |].
  destruct (Hin "shade3") as (s3 & H3); [cbn; tauto |].
  destruct (Hin "shade4") as (s4 & H4); [cbn; tauto |].
  destruct (Hin "shade5") as (s5 & H5); [cbn; tauto |].
  destruct (Hin "shade6") as (s6 & H6); [cbn; tauto |].
  destruct (Hin "shade7") as (s7 & H7); [cbn; tauto |].
  destruct (Hin "shade8") as (s8 & H8); [cbn; tauto |].
  exists bg, fg, fa, s1, s2, s3, s4, s5, s6, s7, s8.
  rewrite ini_section_unfold. unfold getitem.
  rewrite Hbg, Hfg, Hfa, H1, H2, H3, H4, H5, H6, H7, H8.
  repeat (split; [reflexivity |]). reflexivity.
Qed.

Lemma ex_palette_well_formed :
  dom ex_palette = palette_keys /\ hex_valued ex_palette /\ ex_palette <> ∅.
Proof.
  destruct (compose_palette_well_formed ex_centers eq_refl ex_centers_gamut)
    as (palette & Hc & Hdom & Hhex).
  rewrite ex_centers_palette in Hc. injection Hc as <-.
  split; [exact Hdom |]. split; [exact Hhex |].
  intros He. rewrite He, dom_empty_L in Hdom.
  assert (Hin : "background" ∈ palette_keys)
    by (apply elem_of_palette_keys; auto).
  rewrite <- Hdom in Hin. now apply not_elem_of_empty in Hin.
Qed.

Lemma non_empty_not_falsy (palette : gmap string string) :
  palette <> ∅ -> falsy (Some palette) = false.
Proof. intros H. cbn. now apply bool_decide_eq_false_2. Qed.

Lemma full_palette_non_empty (palette : gmap string string) :
  palette_keys ⊆ dom palette -> palette <> ∅.
Proof.
  intros Hsub ->.
  assert (Hin : "background" ∈ palette_keys)
    by (apply elem_of_palette_keys; auto).
  apply Hsub in Hin. rewrite dom_empty_L in Hin.
  now apply not_elem_of_empty in Hin.
Qed.


(** The three ways a writer can end: it skips, it raises and leaves the
    world as it was, or it writes its file and prints its line. *)
Lemma save_ini_cases (palette : option (gmap string string))
    (output_path : string) (w : world) :
  save_palette_to_ini palette output_path w = (Ok (), w) \/
  (exists e, save_palette_to_ini palette output_path w = (Raise e, w)) \/
  (exists content,
     save_palette_to_ini palette output_path w
     = (Ok (),
        World (<[output_path := content]> (files w)) (dirs w)
          (stdout w ++ ["Palette saved to " +:+ output_path]))).
Proof.
  unfold save_palette_to_ini, write_file.
  destruct (falsy palette); [auto |].
  destruct (ini_section _); [| eauto].
  destruct (bool_decide _); eauto.
Qed.

Lemma save_rasi_cases (palette : option (gmap string string))
    (output_path : string) (w : world) :
  save_palette_to_rasi palette output_path w = (Ok (), w) \/
  (exists e, save_palette_to_rasi palette output_path w = (Raise e, w)) \/
  (exists content,
     save_palette_to_rasi palette output_path w
     = (Ok (),
        World (<[output_path := content]> (files w)) (dirs w)
          (stdout w ++ ["RASI palette saved to " +:+ output_path]))).
Proof.
  unfold save_palette_to_rasi, write_file.
  destruct (falsy palette); [auto |].
  destruct (rasi_content _); [| eauto].
  destruct (bool_decide _); eauto.
Qed.





(** X3.  Whatever the palette, the INI writer leaves the directories as
    they are and changes no file other than the one at its output path;
    when it raises, the world is exactly as before; it prints at most its
    one line. *)
Theorem ini_frame (palette : option (gmap string string))
    (output_path : string) (w : world) :
  let r := save_palette_to_ini palette output_path w in
  dirs r.2 = dirs w /\
  (forall q, q <> output_path -> files r.2 !! q = files w !! q) /\
  (forall e, r.1 = Raise e -> r.2 = w) /\
  (stdout r.2 = stdout w \/
   stdout r.2 = stdout w ++ ["Palette saved to " +:+ output_path]).
Proof.
  cbv zeta.
  destruct (save_ini_cases palette output_path w)
    as [-> | [(e & ->) | (content & ->)]]; cbn [fst snd files dirs stdout].
  - auto.
  - auto.
  - split; [reflexivity |]. split; [| split; [intros e He; discriminate He | auto]].
    intros q Hq. now rewrite lookup_insert_ne.
Qed.

(** X4.  Whatever the palette, the theme writer leaves the directories as
    they are and changes no file other than the one at its output path;
    when it raises, the world is exactly as before; it prints at most its
    one line. *)
Theorem rasi_frame (palette : option (gmap string string))
    (output_path : string) (w : world) :
  let r := save_palette_to_rasi palette output_path w in
  dirs r.2 = dirs w /\
  (forall q, q <> output_path -> files r.2 !! q = files w !! q) /\
  (forall e, r.1 = Raise e -> r.2 = w) /\
  (stdout r.2 = stdout w \/
   stdout r.2 = stdout w ++ ["RASI palette saved to " +:+ output_path]).
Proof.
  cbv zeta.
  destruct (save_rasi_cases palette output_path w)
    as [-> | [(e & ->) | (content & ->)]]; cbn [fst snd files dirs stdout].
  - auto.
  - auto.
  - split; [reflexivity |]. split; [| split; [intros e He; discriminate He | auto]].
    intros q Hq. now rewrite lookup_insert_ne.
Qed.

(** X5.  On a palette that is not empty the theme writer needs background
    and foreground: without background it raises [KeyError] for
    background, with background but without foreground it raises
    [KeyError] for foreground, and in both cases the world is left as it
    was. *)
Theorem rasi_missing_key (palette : gmap string string)
    (output_path : string) (w : world) :
  palette <> ∅ ->
  (palette !! "background" = None ->
   save_palette_to_rasi (Some palette) output_path w
   = (Raise (KeyError "background"), w)) /\
  (is_Some (palette !! "background") ->
   palette !! "foreground" = None ->
   save_palette_to_rasi (Some palette) output_path w
   = (Raise (KeyError "foreground"), w)).
Proof.
  intros Hne. unfold save_palette_to_rasi.
  rewrite (non_empty_not_falsy palette Hne).
  change (default ∅ (Some palette)) with palette.
  unfold rasi_content, getitem. split.
  - intros ->. reflexivity.
  - intros [bg ->] ->. reflexivity.
Qed.

Lemma rasi_missing_key_witness :
  (({["foreground" := "#ffffff"]} : gmap string string) !! "background" = None ->
   save_palette_to_rasi (Some {["foreground" := "#ffffff"]}) "out.rasi"
     sample_world
   = (Raise (KeyError "background"), sample_world)) /\
  (is_Some (({["foreground" := "#ffffff"]} : gmap string string)
              !! "background") ->
   ({["foreground" := "#ffffff"]} : gmap string string) !! "foreground" = None ->
   save_palette_to_rasi (Some {["foreground" := "#ffffff"]}) "out.rasi"
     sample_world
   = (Raise (KeyError "foreground"), sample_world)).
Proof.
  apply (rasi_missing_key {["foreground" := "#ffffff"]} "out.rasi" sample_world).
  apply (insert_non_empty (M := gmap string)).
Defined.

(** X6.  The theme writer reads only background, foreground and shade1 to
    shade4: two palettes, neither empty, that agree on these six keys make
    it do the same thing, whatever they hold for foreground-alt, shade5 to
    shade8 or any other key. *)
Theorem rasi_reads_six_keys (p1 p2 : gmap string string)
    (output_path : string) (w : world) :
  p1 <> ∅ -> p2 <> ∅ ->
  Forall (fun k => p1 !! k = p2 !! k)
    ["background"; "foreground"; "shade1"; "shade2"; "shade3"; "shade4"] ->
  save_palette_to_rasi (Some p1) output_path w
  = save_palette_to_rasi (Some p2) output_path w.
Proof.
  intros H1 H2 Hagree.
  repeat match goal with
         | H : Forall _ (_ :: _) |- _ =>
             apply Forall_cons in H; destruct H as [? H]
         end.
  unfold save_palette_to_rasi.
  rewrite (non_empty_not_falsy p1 H1), (non_empty_not_falsy p2 H2).
  change (default ∅ (Some p1)) with p1. change (default ∅ (Some p2)) with p2.
  unfold rasi_content, getitem, get.
  repeat match goal with
         | H : p1 !! _ = p2 !! _ |- _ => rewrite H; clear H
         end.
  reflexivity.
Qed.

Lemma rasi_reads_six_keys_witness :
  save_palette_to_rasi (Some ex_palette) "out.rasi" sample_world
  = save_palette_to_rasi (Some (<["shade5" := "#123456"]> ex_palette))
      "out.rasi" sample_world.
Proof.
  apply (rasi_reads_six_keys ex_palette (<["shade5" := "#123456"]> ex_palette)
           "out.rasi" sample_world).
  - exact (proj2 (proj2 ex_palette_well_formed)).
  - apply insert_non_empty.
  - repeat constructor; now rewrite lookup_insert_ne.
Defined.

(** X7.  Each writer overwrites its file: run a second time with the same
    palette and path on the world the first run left, it leaves the same
    files and directories and gives the same result. *)
Theorem writers_idempotent (palette : option (gmap string string))
    (output_path : string) (w : world) :
  let r1 := save_palette_to_ini palette output_path w in
  let r2 := save_palette_to_ini palette output_path r1.2 in
  let s1 := save_palette_to_rasi palette output_path w in
  let s2 := save_palette_to_rasi palette output_path s1.2 in
  (r2.1 = r1.1 /\ files r2.2 = files r1.2 /\ dirs r2.2 = dirs r1.2) /\
  (s2.1 = s1.1 /\ files s2.2 = files s1.2 /\ dirs s2.2 = dirs s1.2).
Proof.
  cbv zeta.
  unfold save_palette_to_ini, save_palette_to_rasi, write_file, print.
  destruct (falsy palette); [cbn; auto |].
  split.
  - destruct (ini_section _); [| cbn; auto].
    destruct (bool_decide (output_path ∈ dirs w)) eqn:E;
      cbn [fst snd files dirs stdout]; rewrite E; cbn [fst snd files dirs];
      [auto |].
    rewrite insert_insert_eq. auto.
  - destruct (rasi_content _); [| cbn; auto].
    destruct (bool_decide (output_path ∈ dirs w)) eqn:E;
      cbn [fst snd files dirs stdout]; rewrite E; cbn [fst snd files dirs];
      [auto |].
    rewrite insert_insert_eq. auto.
Qed.

(** * Further properties of the composer *)

Lemma py_index_Ok {A : Type} (l : list A) (i : Z) :
  - Z.of_nat (length l) <= i < Z.of_nat (length l) ->
  exists x, py_index l i = Ok x /\ x ∈ l.
Proof.
  intros Hi. unfold py_index.
  set (j := if i <? 0 then i + Z.of_nat (length l) else i).
  assert (Hj : 0 <= j < Z.of_nat (length l)).
  { subst j. destruct (Z.ltb_spec i 0); lia. }
  replace ((0 <=? j) && (j <? Z.of_nat (length l))) with true
    by (symmetry; apply andb_true_intro; split;
        [apply Z.leb_le | apply Z.ltb_lt]; lia).
  destruct (lookup_lt_is_Some_2 l (Z.to_nat j)) as [x Hx]; [lia |].
  rewrite Hx. exists x. split; [reflexivity |].
  eapply list_elem_of_lookup_2. exact Hx.
Qed.

Lemma palette_parts_well_formed (c0 c1 c3 c4 : color)
    (shades : list (Z * Z * Z)) :
  in_gamut c0 -> in_gamut c1 -> in_gamut c3 -> in_gamut c4 ->
  Forall2 (shade_of c1) shade_factors shades ->
  let palette :=
    assign_shades 1 shades
      (<["foreground-alt" := format_rgb (int_channels c3)]>
         (<["foreground" := format_rgb (int_channels c4)]>
            (<["background" := format_rgb (int_channels c0)]> ∅))) in
  dom palette = palette_keys /\ hex_valued palette.
Proof.
  intros H0 H1 H3 H4 Hf. cbv zeta.
  pose proof (Forall2_length _ _ _ Hf) as Hlen. cbn in Hlen.
  destruct shades as [| a [| b [| c [| d [| e [| f [| g [| h [| ? ?]]]]]]]]];
    try discriminate.
  split; [apply palette_dom |].
  rewrite assign_shades_eight. unfold shade_factors in Hf.
  repeat match goal with
         | H : Forall2 _ (_ :: _) (_ :: _) |- _ =>
             apply Forall2_cons in H; destruct H as [? H]
         end.
  unfold hex_valued.
  repeat (apply map_Forall_insert_2;
          [solve [eauto using shade_of_hex, format_center_hex] |]).
  apply map_Forall_empty.
Qed.

(** X8.  The composer reads positions 0, -1, -2 and 1 of the sorted
    centroids: given fewer than two centroids it raises [IndexError]. *)
Theorem compose_palette_too_few (cs : list color) :
  (length cs < 2)%nat -> compose_palette cs = Raise IndexError.
Proof.
  destruct cs as [| a [| b cs]]; cbn [length]; intros H;
    [reflexivity | reflexivity | lia].
Qed.

Lemma compose_palette_too_few_witness :
  compose_palette [(10, 20, 30)%Q] = Raise IndexError.
Proof.
  apply (compose_palette_too_few [(10, 20, 30)%Q]). simpl. lia.
Defined.

(** X9.  Two centroids are enough for the composer: on any list of at
    least two centroids with channels in [0,255] it returns a palette with
    exactly the eleven keys, all values hex colours. *)
Theorem compose_palette_two_suffice (cs : list color) :
  (2 <= length cs)%nat ->
  Forall in_gamut cs ->
  exists palette,
    compose_palette cs = Ok palette /\
    dom palette = palette_keys /\ hex_valued palette.
Proof.
  intros Hl Hg. unfold compose_palette.
  pose proof (sorted_length luminance cs) as Hsl.
  assert (Hsg : Forall in_gamut (sorted luminance cs))
    by now rewrite sorted_Permutation.
  rewrite Forall_forall in Hsg.
  set (l := sorted luminance cs) in *.
  destruct (py_index_Ok l 0) as (c0 & E0 & I0); [lia |].
  destruct (py_index_Ok l (-1)) as (c4 & E4 & I4); [lia |].
  destruct (py_index_Ok l (-2)) as (c3 & E3 & I3); [lia |].
  destruct (py_index_Ok l 1) as (c1 & E1 & I1); [lia |].
  rewrite E0, E4, E3, E1. cbn [mbind result_bind].
  destruct (mapM_Forall2 (tweak_saturation c1) (shade_of c1) shade_factors)
    as (shades & Hm & Hf).
  { intros x _. destruct (shade_of_gamut c1 x (Hsg c1 I1)) as (sh & Hsh).
    exists sh. split; [apply Hsh | exact Hsh]. }
  replace (mapM _ shade_factors) with (Ok shades) by (symmetry; exact Hm).
  cbn [mbind result_bind].
  eexists. split; [reflexivity |].
  apply (palette_parts_well_formed c0 c1 c3 c4 shades); auto.
Qed.

Lemma compose_palette_two_suffice_witness :
  exists palette,
    compose_palette [(10, 20, 30); (200, 100, 50)]%Q = Ok palette /\
    dom palette = palette_keys /\ hex_valued palette.
Proof.
  apply (compose_palette_two_suffice [(10, 20, 30); (200, 100, 50)]%Q).
  - simpl. lia.
  - repeat constructor; unfold Qle; simpl; lia.
Defined.













(** ** The sort *)

Section Stable.
Context {A : Type} (key : A -> Q) (P : A -> bool).
(** [P] depends on the key only, and holds for keys that are equal. *)
Hypothesis P_key : forall x y, P x = true -> P y = true -> (key x == key y)%Q.


End Stable.


(** * Further properties of the command line *)










(** X17.  The output directory is created before the image is read: when
    the image exists but the output directory path is an existing file,
    [main] ends on an uncaught [FileExistsError] whatever the decoder and
    the clusterer would do, and the world is left as it was. *)
Theorem main_output_dir_is_file
    (imread_rgb : string -> result (list pixel))
    (kmeans_fit : list pixel -> result (list color))
    (a : args) (w : world) :
  path_exists (image_path a) w = true ->
  output_dir a ∈ dom (files w) ->
  main imread_rgb kmeans_fit a w
  = (Uncaught (FileExistsError (output_dir a)), w).
Proof.
  intros Hex Hdir. unfold main, makedirs. rewrite Hex. cbn [negb].
  now rewrite bool_decide_eq_true_2 by exact Hdir.
Qed.

Lemma main_output_dir_is_file_witness :
  main (read_as five_grays) first_colors (Args "wall.png" "wall.png")
    sample_world
  = (Uncaught (FileExistsError "wall.png"), sample_world).
Proof.
  apply (main_output_dir_is_file (read_as five_grays) first_colors
           (Args "wall.png" "wall.png") sample_world).
  - vm_compute. reflexivity.
  - apply elem_of_dom. exists "image bytes". apply lookup_insert_eq.
Defined.

(** * How the stages compose *)

(** X18.  Every palette that [extract_colors] returns, whatever the decoder
    and the clusterer are, has exactly the eleven keys: it is never empty,
    so the guard of [main] on the palette never skips the writers, and the
    INI writer finds every key it reads. *)
Theorem extract_colors_keys
    (imread_rgb : string -> result (list pixel))
    (kmeans_fit : list pixel -> result (list color))
    (path : string) (palette : gmap string string) :
  extract_colors imread_rgb kmeans_fit path = Ok palette ->
  dom palette = palette_keys /\
  falsy (Some palette) = false /\
  exists sec, ini_section palette = Ok sec.
Proof.
  unfold extract_colors. intros H.
  destruct (imread_rgb path) as [image |]; [| discriminate].
  cbn [mbind result_bind] in H.
  destruct (kmeans_fit image) as [centers |]; [| discriminate].
  cbn [mbind result_bind] in H.
  destruct (compose_palette_inv centers palette H)
    as (c0 & c1 & c3 & c4 & a & b & c & d & e & f & g & h & _ & _ & _ & _
        & _ & Hp).
  assert (Hdom : dom palette = palette_keys).
  { rewrite Hp, <- assign_shades_eight. apply palette_dom. }
  assert (Hsub : palette_keys ⊆ dom palette) by now rewrite Hdom.
  split; [exact Hdom |].
  split; [apply non_empty_not_falsy, full_palette_non_empty, Hsub |].
  destruct (ini_section_full palette Hsub)
    as (? & ? & ? & ? & ? & ? & ? & ? & ? & ? & ? & Hsec).
  repeat match type of Hsec with _ /\ _ => destruct Hsec as [_ Hsec] end.
  eauto.
Qed.

Lemma extract_colors_keys_witness :
  dom ex_palette = palette_keys /\
  falsy (Some ex_palette) = false /\
  exists sec, ini_section ex_palette = Ok sec.
Proof.
  apply (extract_colors_keys (read_as five_grays) first_colors "wall.png").
  unfold extract_colors. cbn [read_as mbind result_bind].
  change (first_colors five_grays) with (Ok ex_centers).
  exact ex_centers_palette.
Defined.


